(** * gorm gen, package [internal/model], file [base.go]

    A shallow embedding of the keyword sets, the schema type registry,
    the field descriptor and the SQL text buffer of [base.go], and the
    properties of them that the specification states.

    Go strings are byte sequences: they are [string] here, one [ascii]
    per byte.  A [bytes.Buffer] is a [list ascii].  The Go [map] of the
    type registry and of a field's tags is a [gmap] with [string] keys. *)

From Stdlib Require Import Ascii String List Bool Arith Lia.
From stdpp Require Import base gmap strings list.
Import ListNotations.

(** ** The functions of Go's [strings] package that [base.go] calls *)

Module GoStrings.

(** [strings.HasPrefix(s, prefix)]. *)
Fixpoint HasPrefix (s prefix : string) {struct prefix} : bool :=
  match prefix, s with
  | EmptyString, _ => true
  | String _ _, EmptyString => false
  | String p prefix', String c s' =>
      if Ascii.eqb c p then HasPrefix s' prefix' else false
  end.

(** [strings.Contains(s, substr)]: [substr] starts at some offset of [s]. *)
Fixpoint Contains (s substr : string) : bool :=
  HasPrefix s substr ||
  match s with
  | EmptyString => false
  | String _ s' => Contains s' substr
  end.

(** [strings.TrimLeft(s, cutset)] for a cutset of one ASCII byte, which
    is how [base.go] calls it: every leading byte equal to [c] goes. *)
Fixpoint TrimLeft (s : string) (c : ascii) : string :=
  match s with
  | EmptyString => EmptyString
  | String a s' => if Ascii.eqb a c then TrimLeft s' c else s
  end.

Definition bytes (l : list nat) : list ascii := map ascii_of_nat l.

(** The UTF-8 encodings of the code points for which [unicode.IsSpace]
    holds: tab, line feed, vertical tab, form feed, carriage return,
    space, U+0085, U+00A0, U+1680, U+2000 to U+200A, U+2028, U+2029,
    U+202F, U+205F and U+3000. *)
Definition space_runes : list (list ascii) :=
  map bytes
    ([ [9]; [10]; [11]; [12]; [13]; [32]; [194; 133]; [194; 160];
       [225; 154; 128] ]
     ++ map (fun k => [226; 128; 128 + k]) (seq 0 11)
     ++ [ [226; 128; 168]; [226; 128; 169]; [226; 128; 175];
          [226; 129; 159]; [227; 128; 128] ]).

Fixpoint strip_prefix (p l : list ascii) : option (list ascii) :=
  match p, l with
  | [], _ => Some l
  | _ :: _, [] => None
  | a :: p', b :: l' => if Ascii.eqb a b then strip_prefix p' l' else None
  end.

(** The text after the first of the [runes] that [l] starts with. *)
Fixpoint strip_rune (runes : list (list ascii)) (l : list ascii)
  : option (list ascii) :=
  match runes with
  | [] => None
  | r :: runes' =>
      match strip_prefix r l with
      | Some rest => Some rest
      | None => strip_rune runes' l
      end
  end.

(** Drop leading runes of [runes]; every round removes at least one
    byte when no rune is empty, so [length l] rounds are enough
    ([trim_runes_done]). *)
Fixpoint trim_runes_fuel (fuel : nat) (runes : list (list ascii))
    (l : list ascii) : list ascii :=
  match fuel with
  | O => l
  | S fuel' =>
      match strip_rune runes l with
      | Some rest => trim_runes_fuel fuel' runes rest
      | None => l
      end
  end.

Definition trim_runes (runes : list (list ascii)) (l : list ascii) :=
  trim_runes_fuel (length l) runes l.

(** [strings.TrimSpace(s)]: leading and trailing white space, as
    Unicode defines it, removed.  A well-formed encoding of a code point
    is the only byte sequence that decodes to it, so the first (last)
    rune of the text is a space exactly when the text starts (ends) with
    one of [space_runes]; the trailing side is trimmed on the reversed
    text. *)
Definition TrimSpace (s : string) : string :=
  let l := trim_runes space_runes (list_ascii_of_string s) in
  string_of_list_ascii
    (rev (trim_runes (map (@rev ascii) space_runes) (rev l))).

Definition is_upper (c : ascii) : bool :=
  let n := nat_of_ascii c in (65 <=? n) && (n <=? 90).

Definition is_lower (c : ascii) : bool :=
  let n := nat_of_ascii c in (97 <=? n) && (n <=? 122).

Definition is_digit (c : ascii) : bool :=
  let n := nat_of_ascii c in (48 <=? n) && (n <=? 57).

Definition lower_byte (c : ascii) : ascii :=
  if is_upper c then ascii_of_nat (nat_of_ascii c + 32) else c.

Definition upper_byte (c : ascii) : ascii :=
  if is_lower c then ascii_of_nat (nat_of_ascii c - 32) else c.

Fixpoint map_bytes (f : ascii -> ascii) (s : string) : string :=
  match s with
  | EmptyString => EmptyString
  | String c s' => String (f c) (map_bytes f s')
  end.

(** [strings.ToLower(s)] on ASCII text: the letters A to Z become a to
    z.  On text with a byte above 0x7F Go lowers code point by code
    point with the Unicode tables, which are not reproduced here; the
    registry below is therefore stated over any case normalisation and
    [ToLower] is the instance used on ASCII names. *)
Definition ToLower (s : string) : string := map_bytes lower_byte s.

(** [isSeparator] of [strings.Title], on ASCII: letters, digits and the
    underscore do not separate words, every other byte does. *)
Definition isSeparator (c : ascii) : bool :=
  negb (is_digit c || is_lower c || is_upper c || Ascii.eqb c "_"%char).

Fixpoint Title_from (prev : ascii) (s : string) : string :=
  match s with
  | EmptyString => EmptyString
  | String c s' =>
      String (if isSeparator prev then upper_byte c else c) (Title_from c s')
  end.

(** [strings.Title(s)] on ASCII text: the first letter of every word in
    upper case.  [base.go] calls it on ASCII literals only. *)
Definition Title (s : string) : string := Title_from " "%char s.

End GoStrings.

Import GoStrings.

(** ** Keyword sets *)

(** [type KeyWord struct { words []string }] *)
Record KeyWord := { words : list string }.

(** [var GormKeywords] *)
Definition GormKeywords : KeyWord :=
  {| words :=
       [ "UnderlyingDB"; "UseDB"; "UseModel"; "UseTable"; "Quote"; "Debug";
         "TableName"; "WithContext";
         "As"; "Not"; "Or"; "Build"; "Columns"; "Hints";
         "Distinct"; "Omit";
         "Select"; "Where"; "Order"; "Group"; "Having"; "Limit"; "Offset";
         "Join"; "LeftJoin"; "RightJoin";
         "Save"; "Create"; "CreateInBatches";
         "Update"; "Updates"; "UpdateColumn"; "UpdateColumns";
         "Find"; "FindInBatches"; "First"; "Take"; "Last"; "Pluck"; "Count";
         "Scan"; "ScanRows"; "Row"; "Rows";
         "Delete"; "Unscoped";
         "Scopes" ] |}.

(** [var DOKeywords] *)
Definition DOKeywords : KeyWord :=
  {| words := [ "Alias"; "TableName"; "WithContext" ] |}.

(** [var GenKeywords] *)
Definition GenKeywords : KeyWord :=
  {| words := [ "generateSQL"; "whereClause"; "setClause" ] |}.

(** The loop [for _, item := range g.words] with an early [return true]. *)
Fixpoint range_any (test : string -> bool) (items : list string) : bool :=
  match items with
  | [] => false
  | item :: items' => if test item then true else range_any test items'
  end.

(** [func (g *KeyWord) FullMatch(word string) bool] *)
Definition FullMatch (g : KeyWord) (word : string) : bool :=
  range_any (fun item => String.eqb word item) (words g).

(** [func (g *KeyWord) Contain(text string) bool] *)
Definition Contain (g : KeyWord) (text : string) : bool :=
  range_any (fun item => Contains text item) (words g).

(** ** The schema type registry *)

(** [type dataTypeMapping func(detailType string) (finalType string)] *)
Abbreviation dataTypeMapping := (string -> string).

(** [type dataTypeMap map[string]dataTypeMapping] *)
Abbreviation dataTypeMap := (gmap string dataTypeMapping).

(** [defaultDataType = "string"] *)
Definition defaultDataType : string := "string".

(** The mapping function registered for ["tinyint"]. *)
Definition tinyint_mapping : dataTypeMapping :=
  fun detailType =>
    if HasPrefix (TrimSpace detailType) "tinyint(1)" then "bool" else "int32".

(** The entries of the map literal that initialises [dataType]. *)
Definition builtin : list (string * dataTypeMapping) :=
  [ ("numeric", fun _ => "int32");
    ("integer", fun _ => "int32");
    ("int", fun _ => "int32");
    ("smallint", fun _ => "int32");
    ("mediumint", fun _ => "int32");
    ("bigint", fun _ => "int64");
    ("float", fun _ => "float32");
    ("real", fun _ => "float64");
    ("double", fun _ => "float64");
    ("decimal", fun _ => "float64");
    ("char", fun _ => "string");
    ("varchar", fun _ => "string");
    ("tinytext", fun _ => "string");
    ("mediumtext", fun _ => "string");
    ("longtext", fun _ => "string");
    ("binary", fun _ => "[]byte");
    ("varbinary", fun _ => "[]byte");
    ("tinyblob", fun _ => "[]byte");
    ("blob", fun _ => "[]byte");
    ("mediumblob", fun _ => "[]byte");
    ("longblob", fun _ => "[]byte");
    ("text", fun _ => "string");
    ("json", fun _ => "string");
    ("enum", fun _ => "string");
    ("time", fun _ => "time.Time");
    ("date", fun _ => "time.Time");
    ("datetime", fun _ => "time.Time");
    ("timestamp", fun _ => "time.Time");
    ("year", fun _ => "int32");
    ("bit", fun _ => "[]uint8");
    ("boolean", fun _ => "bool");
    ("tinyint", tinyint_mapping) ].

(** [var dataType dataTypeMap], as the program starts.  It is a package
    variable that [SetDataType] updates: the functions below take the
    current registry and, when they write, return the next one. *)
Definition dataType : dataTypeMap := list_to_map builtin.

Section Registry.

(** [strings.ToLower], see [GoStrings.ToLower]. *)
Variable lower : string -> string.

(** [func (m dataTypeMap) Get(dataType, detailType string) string] *)
Definition Get (m : dataTypeMap) (dataType detailType : string) : string :=
  match m !! lower dataType with
  | Some convert => convert detailType
  | None => defaultDataType
  end.

(** [func GetDataType(sqlDataType string) string], reading the registry
    [m] that the package variable holds at the call. *)
Definition GetDataType (m : dataTypeMap) (sqlDataType : string) : string :=
  Get m sqlDataType "".

End Registry.

(** [func SetDataType(dbType string, getTypeFunc dataTypeMapping)]:
    [dataType[dbType] = getTypeFunc], the key stored as it is given. *)
Definition SetDataType (dbType : string) (getTypeFunc : dataTypeMapping)
    (m : dataTypeMap) : dataTypeMap :=
  <[dbType := getTypeFunc]> m.

(** ** Field descriptors *)

Section FieldDescriptor.

(** Package [field] is not part of this file.  Its types [GormTag] and
    [Relation], the tag key [TagKeyGorm] and the renderings [Tag.Build]
    and [GormTag.Build] are parameters.  [field.Tag] is indexed by a
    tag key and holds strings: a [gmap string string]. *)
Variables GormTag Relation : Type.
Variable TagKeyGorm : string.
Variable Tag_Build : gmap string string -> string.
Variable GormTag_Build : GormTag -> string.

(** Modelled from the spec: [field.Tag.Set], which is not in this file,
    installs the value under the key, replacing what was there. *)
Definition Tag_Set (key value : string) (tag : gmap string string)
  : gmap string string :=
  <[key := value]> tag.

(** [type Field struct]; [Relation] is a pointer, [None] when nil. *)
Record Field := mkField {
  Name : string;
  Type_ : string;
  ColumnName : string;
  ColumnComment : string;
  MultilineComment : bool;
  Tag : gmap string string;
  GORMTag : GormTag;
  CustomGenType : string;
  Relation_ : option Relation
}.

(** The assignments [m.Tag = ...] and [m.Name = ...]. *)
Definition set_Tag (tag : gmap string string) (m : Field) : Field :=
  mkField (Name m) (Type_ m) (ColumnName m) (ColumnComment m)
    (MultilineComment m) tag (GORMTag m) (CustomGenType m) (Relation_ m).

Definition set_Name (name : string) (m : Field) : Field :=
  mkField name (Type_ m) (ColumnName m) (ColumnComment m)
    (MultilineComment m) (Tag m) (GORMTag m) (CustomGenType m) (Relation_ m).

(** [func (m *Field) Tags() string]: the text returned and the
    descriptor as the call leaves it. *)
Definition Tags (m : Field) : string * Field :=
  match Tag m !! TagKeyGorm with
  | Some _ => (Tag_Build (Tag m), m)
  | None =>
      let gormTag := TrimSpace (GormTag_Build (GORMTag m)) in
      let m' :=
        if String.eqb gormTag "" then m
        else set_Tag (Tag_Set TagKeyGorm gormTag (Tag m)) m in
      (Tag_Build (Tag m'), m')
  end.

(** [func (m *Field) IsRelation() bool] *)
Definition IsRelation (m : Field) : bool :=
  match Relation_ m with Some _ => true | None => false end.

(** One [case] of a [switch] on a string: [typ] equals a listed label. *)
Definition case_of (typ : string) (labels : list string) : bool :=
  existsb (String.eqb typ) labels.

(** [func (m *Field) GenType() string] *)
Definition GenType (m : Field) : string :=
  if IsRelation m then Type_ m
  else if negb (String.eqb (CustomGenType m) "") then CustomGenType m
  else
    let typ := TrimLeft (Type_ m) "*" in
    if case_of typ ["string"; "bytes"] then Title typ
    else if case_of typ ["int"; "int8"; "int16"; "int32"; "int64";
                         "uint"; "uint8"; "uint16"; "uint32"; "uint64"]
    then Title typ
    else if case_of typ ["float64"; "float32"] then Title typ
    else if case_of typ ["bool"] then Title typ
    else if case_of typ ["time.Time"] then "Time"
    else if case_of typ ["json.RawMessage"; "[]byte"] then "Bytes"
    else if case_of typ ["serializer"] then "Serializer"
    else "Field".

(** [func (m *Field) EscapeKeywordFor(keywords KeyWord) *Field].  The
    method renames [m] in place and returns the pointer it was called
    on: the result is that one descriptor after the call. *)
Definition EscapeKeywordFor (keywords : KeyWord) (m : Field) : Field :=
  if FullMatch keywords (Name m) then set_Name (Name m +:+ "_") m else m.

(** [func (m *Field) EscapeKeyword() *Field] *)
Definition EscapeKeyword (m : Field) : Field :=
  EscapeKeywordFor GormKeywords m.

End FieldDescriptor.

Arguments mkField {GormTag Relation}.
Arguments Name {GormTag Relation}.
Arguments Type_ {GormTag Relation}.
Arguments ColumnName {GormTag Relation}.
Arguments ColumnComment {GormTag Relation}.
Arguments MultilineComment {GormTag Relation}.
Arguments Tag {GormTag Relation}.
Arguments GORMTag {GormTag Relation}.
Arguments CustomGenType {GormTag Relation}.
Arguments Relation_ {GormTag Relation}.
Arguments set_Tag {GormTag Relation}.
Arguments set_Name {GormTag Relation}.
Arguments Tags {GormTag Relation}.
Arguments IsRelation {GormTag Relation}.
Arguments GenType {GormTag Relation}.
Arguments EscapeKeywordFor {GormTag Relation}.
Arguments EscapeKeyword {GormTag Relation}.

(** ** The SQL text buffer *)

(** [type SQLBuffer struct{ bytes.Buffer }].  Only bytes are written and
    none is read before a reset, so the buffer is its unread bytes. *)
Definition SQLBuffer : Type := list ascii.

(** The methods of [bytes.Buffer] that [base.go] calls. *)
Module Buffer.
Definition Len (s : SQLBuffer) : nat := length s.
Definition Bytes (s : SQLBuffer) : list ascii := s.
Definition WriteByte (c : ascii) (s : SQLBuffer) : SQLBuffer := s ++ [c].
Definition Reset (s : SQLBuffer) : SQLBuffer := [].
Definition String (s : SQLBuffer) : string := string_of_list_ascii s.
End Buffer.

(** A fresh [SQLBuffer]: the zero value. *)
Definition empty_buffer : SQLBuffer := [].

(** The bytes of [case '\n', '\t', ' '] in [WriteSQL]. *)
Definition is_blank (b : ascii) : bool :=
  Ascii.eqb b "010"%char || Ascii.eqb b "009"%char || Ascii.eqb b " "%char.

(** [func (s *SQLBuffer) WriteSQL(b byte)]; the index
    [s.Bytes()[s.Len()-1]] is read only when [s.Len() != 0]. *)
Definition WriteSQL (b : ascii) (s : SQLBuffer) : SQLBuffer :=
  if is_blank b then
    if (Buffer.Len s =? 0)
       || negb (Ascii.eqb (nth (Buffer.Len s - 1) (Buffer.Bytes s) zero)
                  " "%char)
    then Buffer.WriteByte " "%char s
    else s
  else Buffer.WriteByte b s.

(** [func (s *SQLBuffer) Dump() string]: [s.String()] is evaluated, then
    the deferred [s.Reset()] runs; the text and the buffer left behind. *)
Definition Dump (s : SQLBuffer) : string * SQLBuffer :=
  (Buffer.String s, Buffer.Reset s).

(** A caller feeding the bytes of [text] through [WriteSQL], in order. *)
Definition feed (text : list ascii) (s : SQLBuffer) : SQLBuffer :=
  fold_left (fun s b => WriteSQL b s) text s.

(** ** Predicates of the specification *)

(** [sub] occurs in [s]. *)
Definition substring_of (sub s : string) : Prop :=
  exists pre post, s = pre +:+ sub +:+ post.

Fixpoint last_byte (s : string) : option ascii :=
  match s with
  | EmptyString => None
  | String c EmptyString => Some c
  | String _ s' => last_byte s'
  end.

(** The word ends in an underscore. *)
Definition ends_in_underscore (w : string) : bool :=
  match last_byte w with
  | Some c => Ascii.eqb c "_"%char
  | None => false
  end.

(** No two neighbouring bytes of the text are both blank. *)
Fixpoint no_blank_pair (l : list ascii) : bool :=
  match l with
  | [] => true
  | a :: l' =>
      match l' with
      | [] => true
      | b :: _ => negb (is_blank a && is_blank b) && no_blank_pair l'
      end
  end.

(** The descriptor [m] with another type string. *)
Definition set_Type {GormTag Relation : Type} (typ : string)
    (m : Field GormTag Relation) : Field GormTag Relation :=
  mkField (Name m) typ (ColumnName m) (ColumnComment m)
    (MultilineComment m) (Tag m) (GORMTag m) (CustomGenType m) (Relation_ m).

(** [n] pointer markers. *)
Fixpoint stars (n : nat) : string :=
  match n with
  | O => EmptyString
  | S n' => String "*"%char (stars n')
  end.

(** The classification of the specification, as a table: type string,
    generic kind. *)
Definition gen_kinds : list (string * string) :=
  [ ("string", "String"); ("bytes", "Bytes");
    ("int", "Int"); ("int8", "Int8"); ("int16", "Int16");
    ("int32", "Int32"); ("int64", "Int64");
    ("uint", "Uint"); ("uint8", "Uint8"); ("uint16", "Uint16");
    ("uint32", "Uint32"); ("uint64", "Uint64");
    ("float64", "Float64"); ("float32", "Float32");
    ("bool", "Bool");
    ("time.Time", "Time");
    ("json.RawMessage", "Bytes"); ("[]byte", "Bytes");
    ("serializer", "Serializer") ].

Fixpoint assoc (typ : string) (table : list (string * string))
  : option string :=
  match table with
  | [] => None
  | (k, v) :: table' => if String.eqb typ k then Some v else assoc typ table'
  end.

(** The kind of a type string: its row of [gen_kinds], else "Field". *)
Definition classify (typ : string) : string :=
  match assoc typ gen_kinds with
  | Some kind => kind
  | None => "Field"
  end.

(** The specification's wording of the last step of [GenType]: a single
    leading pointer marker is stripped. *)
Definition strip_one_marker (typ : string) : string :=
  match typ with
  | EmptyString => EmptyString
  | String c rest => if Ascii.eqb c "*"%char then rest else typ
  end.

(** [GenType] as the specification words it, to compare with [GenType]. *)
Definition GenType_single_strip {GormTag Relation : Type}
    (m : Field GormTag Relation) : string :=
  if IsRelation m then Type_ m
  else if negb (String.eqb (CustomGenType m) "") then CustomGenType m
  else classify (strip_one_marker (Type_ m)).

(** A descriptor with a name and a type and nothing else set, for the
    examples; its secondary tag is kept as rendered text. *)
Definition plain_field (name typ : string) : Field string unit :=
  mkField name typ "" "" false ∅ "" "" None.

(** A rendering of a tag map for the examples: [key:value] entries
    separated by spaces. *)
Definition example_Tag_Build (tag : gmap string string) : string :=
  String.concat " " (map (fun kv => kv.1 +:+ ":" +:+ kv.2) (map_to_list tag)).

(** No word of the keyword set ends in an underscore. *)
Definition no_trailing_underscore (g : KeyWord) : bool :=
  forallb (fun w => negb (ends_in_underscore w)) (words g).

(** The type names of the built-in table. *)
Definition builtin_names : list string := map fst builtin.

(** What every [WriteSQL] keeps: no blank pair, and a blank last byte is
    a space (tabs and line feeds never enter the buffer). *)
Definition collapsed (s : SQLBuffer) : Prop :=
  no_blank_pair s = true /\
  forall c, last s = Some c -> is_blank c = true -> c = " "%char.

(** The type strings that the mapping functions of the built-in table
    return. *)
Definition go_types : list string :=
  [ "int32"; "int64"; "float32"; "float64"; "string"; "[]byte";
    "time.Time"; "[]uint8"; "bool" ].

(** The kinds that the [switch] of [GenType] returns. *)
Definition gen_kind_names : list string :=
  [ "String"; "Bytes"; "Int"; "Int8"; "Int16"; "Int32"; "Int64";
    "Uint"; "Uint8"; "Uint16"; "Uint32"; "Uint64"; "Float64"; "Float32";
    "Bool"; "Time"; "Serializer"; "Field" ].

(** A tab or a line feed. *)
Definition is_tab_or_lf (b : ascii) : bool :=
  Ascii.eqb b "010"%char || Ascii.eqb b "009"%char.

(** Text as [WriteSQL] leaves it: no tab, no line feed, no two spaces in
    a row. *)
Definition squeezed (l : list ascii) : bool :=
  forallb (fun b => negb (is_tab_or_lf b)) l && no_blank_pair l.

(** The bytes of the text that are not blank, in order. *)
Definition solid_bytes (l : list ascii) : list ascii :=
  List.filter (fun b => negb (is_blank b)) l.

(** The byte that [WriteSQL] has in mind for [b]: a space for a blank. *)
Definition blank_to_space (b : ascii) : ascii :=
  if is_blank b then " "%char else b.

(** ASCII white space: tab, line feed, vertical tab, form feed, carriage
    return, space. *)
Definition is_ascii_space (c : ascii) : bool :=
  let n := nat_of_ascii c in ((9 <=? n) && (n <=? 13)) || (n =? 32).

(** * Properties *)

(** ** Go's string functions meet their descriptions *)

Section StringFacts.

Lemma HasPrefix_true (s prefix : string) :
  HasPrefix s prefix = true <-> exists post, s = prefix +:+ post.
Proof.
  revert s. induction prefix as [|p prefix IH]; intros s; simpl.
  - split; [intros _; now exists s | reflexivity].
  - destruct s as [|c s].
    + split; [discriminate | intros [post Hpost]; discriminate].
    + destruct (Ascii.eqb_spec c p) as [->|Hne].
      * rewrite IH. split; intros [post Hpost]; exists post.
        -- now rewrite Hpost.
        -- now injection Hpost.
      * split; [discriminate|].
        intros [post Hpost]. injection Hpost as Hc _. contradiction.
Qed.

Lemma Contains_true (s substr : string) :
  Contains s substr = true <-> substring_of substr s.
Proof.
  unfold substring_of. induction s as [|c s IH].
  - cbn [Contains]. rewrite orb_false_r, HasPrefix_true. split.
    + intros [post Hpost]. now exists EmptyString, post.
    + intros (pre & post & Heq). destruct pre; [now exists post|discriminate].
  - cbn [Contains]. rewrite orb_true_iff, IH, HasPrefix_true. split.
    + intros [[post Hpost] | (pre & post & Heq)].
      * now exists EmptyString, post.
      * exists (String c pre), post. simpl. now rewrite Heq.
    + intros (pre & post & Heq). destruct pre as [|a pre].
      * left. now exists post.
      * right. exists pre, post. simpl in Heq. now injection Heq.
Qed.

Lemma range_any_true (test : string -> bool) (items : list string) :
  range_any test items = true <->
  exists item, In item items /\ test item = true.
Proof.
  induction items as [|x items IH]; simpl.
  - split; [discriminate | intros (? & [] & _)].
  - destruct (test x) eqn:Hx.
    + split; [intros _; exists x; auto | reflexivity].
    + rewrite IH. split; intros (item & Hin & Ht).
      * exists item; auto.
      * destruct Hin as [<-|Hin]; [congruence | exists item; auto].
Qed.

Lemma strip_prefix_length (p l rest : list ascii) :
  strip_prefix p l = Some rest -> length l = length p + length rest.
Proof.
  revert l. induction p as [|a p IH]; intros l; simpl.
  - now intros [= ->].
  - destruct l as [|b l]; [discriminate|].
    destruct (Ascii.eqb a b); [|discriminate].
    intros H. apply IH in H. simpl. lia.
Qed.

Lemma strip_rune_shorter (runes : list (list ascii)) (l rest : list ascii) :
  Forall (fun r => r <> []) runes ->
  strip_rune runes l = Some rest -> length rest < length l.
Proof.
  induction 1 as [|r runes Hr _ IH]; simpl; [discriminate|].
  destruct (strip_prefix r l) as [rest'|] eqn:Hp; [|exact IH].
  intros [= ->]. apply strip_prefix_length in Hp.
  destruct r; [contradiction | simpl in Hp; lia].
Qed.

(** The fuel of [trim_runes] is enough: what it returns starts with
    none of the runes. *)
Lemma trim_runes_done (runes : list (list ascii)) (l : list ascii) :
  Forall (fun r => r <> []) runes ->
  strip_rune runes (trim_runes runes l) = None.
Proof.
  intros Hne. unfold trim_runes.
  assert (Hfuel : forall n l, length l <= n ->
            strip_rune runes (trim_runes_fuel n runes l) = None).
  { induction n as [|n IH]; intros l0 Hlen.
    - destruct l0; [|simpl in Hlen; lia].
      simpl. clear Hlen. induction Hne as [|r runes Hr _ IHr]; [reflexivity|].
      simpl. destruct r; [contradiction | exact IHr].
    - simpl. destruct (strip_rune runes l0) as [rest|] eqn:Hs; [|exact Hs].
      apply IH. apply (strip_rune_shorter _ _ _ Hne) in Hs. lia. }
  now apply Hfuel.
Qed.

Lemma space_runes_nonempty : Forall (fun r => r <> []) space_runes.
Proof. repeat constructor; discriminate. Qed.

End StringFacts.

(** ** Keyword sets: full match and containment *)

Lemma FullMatch_In (g : KeyWord) (word : string) :
  FullMatch g word = true <-> In word (words g).
Proof.
  unfold FullMatch. rewrite range_any_true. split.
  - intros (item & Hin & Heq). apply String.eqb_eq in Heq. now subst.
  - intros Hin. exists word. split; [assumption | apply String.eqb_refl].
Qed.

Lemma Contain_substring (g : KeyWord) (text : string) :
  Contain g text = true <->
  exists item, In item (words g) /\ substring_of item text.
Proof.
  unfold Contain. rewrite range_any_true.
  split; intros (item & Hin & H); exists item; split; auto;
    now apply Contains_true.
Qed.

(** C8. For every keyword set and every string, [FullMatch] holds exactly
    when the string is, byte for byte, a member of the set, and [Contain]
    holds exactly when some member occurs in the string; on the
    query-builder set, [FullMatch] accepts "Find" and rejects "findAll",
    and [Contain] accepts "myFindByID". *)
Theorem keyword_set_matching (g : KeyWord) (s : string) :
  (FullMatch g s = true <-> In s (words g))
  /\ (Contain g s = true <->
      exists item, In item (words g) /\ substring_of item s)
  /\ FullMatch GormKeywords "Find" = true
  /\ FullMatch GormKeywords "findAll" = false
  /\ Contain GormKeywords "myFindByID" = true.
Proof.
  split; [apply FullMatch_In|].
  split; [apply Contain_substring|].
  repeat split; reflexivity.
Qed.

(** ** The SQL text buffer: collapsing and draining *)

Section BufferFacts.

Lemma WriteSQL_empty (b : ascii) :
  WriteSQL b [] = [if is_blank b then " "%char else b].
Proof. unfold WriteSQL. now destruct (is_blank b). Qed.

Lemma WriteSQL_snoc (b x : ascii) (l : list ascii) :
  WriteSQL b (l ++ [x]) =
  if is_blank b
  then if Ascii.eqb x " "%char then l ++ [x] else (l ++ [x]) ++ [" "%char]
  else (l ++ [x]) ++ [b].
Proof.
  unfold WriteSQL, Buffer.Len, Buffer.Bytes, Buffer.WriteByte.
  destruct (is_blank b); [|reflexivity].
  replace (length (l ++ [x]) - 1) with (length l)
    by (rewrite length_app; simpl; lia).
  rewrite nth_middle.
  destruct (length (l ++ [x])) eqn:Hlen.
  - rewrite length_app in Hlen. simpl in Hlen. lia.
  - now destruct (Ascii.eqb x " "%char).
Qed.

Lemma no_blank_pair_snoc (l : list ascii) (x : ascii) :
  no_blank_pair (l ++ [x]) =
  no_blank_pair l &&
  match last l with
  | Some c => negb (is_blank c && is_blank x)
  | None => true
  end.
Proof.
  induction l as [|a l IH]; [reflexivity|].
  destruct l as [|b l].
  - cbn. now rewrite andb_true_r.
  - change (no_blank_pair ((a :: b :: l) ++ [x]))
      with (negb (is_blank a && is_blank b) && no_blank_pair ((b :: l) ++ [x])).
    rewrite IH. change (last (a :: b :: l)) with (last (b :: l)).
    cbn [no_blank_pair]. now rewrite andb_assoc.
Qed.

Lemma collapsed_empty : collapsed empty_buffer.
Proof. split; [reflexivity | discriminate]. Qed.

Lemma collapsed_WriteSQL (b : ascii) (s : SQLBuffer) :
  collapsed s -> collapsed (WriteSQL b s).
Proof.
  intros [Hpair Hlast].
  destruct s as [|x l _] using rev_ind.
  - rewrite WriteSQL_empty. split; [reflexivity|].
    intros c [= <-]. destruct (is_blank b) eqn:Hb; [reflexivity | congruence].
  - rewrite WriteSQL_snoc.
    destruct (is_blank b) eqn:Hb.
    + destruct (Ascii.eqb_spec x " "%char) as [->|Hx]; [now split|].
      split.
      * rewrite no_blank_pair_snoc, Hpair, last_snoc.
        destruct (is_blank x) eqn:Hbx; [|reflexivity].
        exfalso. apply Hx, Hlast; [apply last_snoc | assumption].
      * intros c. rewrite last_snoc. now intros [= <-].
    + split.
      * rewrite no_blank_pair_snoc, Hpair, last_snoc, Hb.
        now rewrite andb_false_r.
      * intros c. rewrite last_snoc. intros [= <-]. congruence.
Qed.

Lemma collapsed_feed (text : list ascii) (s : SQLBuffer) :
  collapsed s -> collapsed (feed text s).
Proof.
  revert s. induction text as [|b text IH]; intros s Hs; [assumption|].
  apply IH, collapsed_WriteSQL, Hs.
Qed.

End BufferFacts.

(** C4. Stepwise, a blank byte (space, tab, line feed) written to a buffer
    that is empty or does not end in a space appends one space, a blank
    byte written to a buffer that ends in a space appends nothing, and any
    other byte is appended as it is; whatever bytes are fed to a fresh
    buffer, the text held never has two blank bytes next to each other;
    and the bytes of "a", line feed, tab, two spaces, "b" drain as "a b". *)
Theorem WriteSQL_collapses_blanks (text : list ascii) :
  (forall (s : SQLBuffer) (b : ascii),
      is_blank b = true ->
      s = [] \/ (exists c, last s = Some c /\ c <> " "%char) ->
      WriteSQL b s = s ++ [" "%char])
  /\ (forall (s : SQLBuffer) (b : ascii),
      is_blank b = true -> last s = Some " "%char -> WriteSQL b s = s)
  /\ (forall (s : SQLBuffer) (b : ascii),
      is_blank b = false -> WriteSQL b s = s ++ [b])
  /\ no_blank_pair (feed text empty_buffer) = true
  /\ Dump (feed ["a"; "010"; "009"; " "; " "; "b"]%char empty_buffer)
     = ("a b", empty_buffer).
Proof.
  repeat apply conj.
  - intros s b Hb [->|(c & Hc & Hne)].
    + now rewrite WriteSQL_empty, Hb.
    + destruct s as [|x l _] using rev_ind; [discriminate|].
      rewrite last_snoc in Hc. injection Hc as ->.
      rewrite WriteSQL_snoc, Hb.
      now destruct (Ascii.eqb_spec c " "%char).
  - intros s b Hb Hlast.
    destruct s as [|x l _] using rev_ind; [discriminate|].
    rewrite last_snoc in Hlast. injection Hlast as ->.
    now rewrite WriteSQL_snoc, Hb.
  - intros s b Hb. unfold WriteSQL. now rewrite Hb.
  - apply (collapsed_feed text empty_buffer collapsed_empty).
  - reflexivity.
Qed.

(** The steps of C4 at work: a tab after "a" appends a space, a line feed
    after "a " appends nothing, and "b" after "a " is appended. *)
Lemma WriteSQL_collapses_blanks_witness :
  WriteSQL "009"%char ["a"%char] = ["a"; " "]%char
  /\ WriteSQL "010"%char ["a"; " "]%char = ["a"; " "]%char
  /\ WriteSQL "b"%char ["a"; " "]%char = ["a"; " "; "b"]%char.
Proof.
  destruct (WriteSQL_collapses_blanks []) as (H1 & H2 & H3 & _).
  split; [|split].
  - apply (H1 ["a"%char] "009"%char); [reflexivity|].
    right. exists "a"%char. split; [reflexivity | discriminate].
  - apply (H2 ["a"; " "]%char "010"%char); reflexivity.
  - apply (H3 ["a"; " "]%char "b"%char); reflexivity.
Defined.

(** C9. [Dump] returns all the text the buffer holds and leaves it empty:
    a fresh buffer drains as the empty string, so does a buffer that was
    just drained, and what is fed after a drain drains as if fed to a
    fresh buffer, "x" giving "x". *)
Theorem Dump_drains_and_resets (s : SQLBuffer) (text : list ascii) :
  list_ascii_of_string (fst (Dump s)) = s
  /\ snd (Dump s) = empty_buffer
  /\ Dump empty_buffer = ("", empty_buffer)
  /\ Dump (snd (Dump s)) = ("", empty_buffer)
  /\ Dump (feed text (snd (Dump s))) = Dump (feed text empty_buffer)
  /\ Dump (feed ["x"%char] (snd (Dump s))) = ("x", empty_buffer).
Proof.
  repeat apply conj; try reflexivity.
  apply list_ascii_of_string_of_list_ascii.
Qed.

(** ** The schema type registry: lookup and registration *)

Section RegistryFacts.

Variable lower : string -> string.

Lemma Get_found (m : dataTypeMap) (t d : string) (fn : dataTypeMapping) :
  m !! lower t = Some fn -> Get lower m t d = fn d.
Proof. unfold Get. now intros ->. Qed.

Lemma Get_missing (m : dataTypeMap) (t d : string) :
  m !! lower t = None -> Get lower m t d = defaultDataType.
Proof. unfold Get. now intros ->. Qed.

(** A mapping registered under a key that is its own normal form is
    found under every spelling that normalises to the key, and a second
    registration replaces the first. *)
Lemma SetDataType_Get (m : dataTypeMap) (k t d : string)
    (fn fn2 : dataTypeMapping) :
  lower t = k ->
  Get lower (SetDataType k fn m) t d = fn d
  /\ Get lower (SetDataType k fn2 (SetDataType k fn m)) t d = fn2 d.
Proof.
  intros Hk. unfold SetDataType.
  split; apply Get_found; rewrite Hk; apply lookup_insert_eq.
Qed.

Lemma dataType_missing (t : string) :
  ~ In t builtin_names -> dataType !! t = None.
Proof.
  intros Hnot. apply not_elem_of_list_to_map_1.
  intros Hin. apply Hnot, list_elem_of_In, Hin.
Qed.

End RegistryFacts.

Lemma dataType_tinyint : dataType !! ToLower "tinyint" = Some tinyint_mapping.
Proof. reflexivity. Qed.

(** C7. A type name whose normal form has no entry in the registry gets
    the default type "string", whatever the detail string; for the
    built-in table that is every name whose normal form is not one of its
    thirty-two names, "nonexistent_type" among them. *)
Theorem Get_unmapped_is_default
    (lower : string -> string) (m : dataTypeMap) (t d : string) :
  (m !! lower t = None -> Get lower m t d = "string")
  /\ (~ In (lower t) builtin_names -> Get lower dataType t d = "string")
  /\ Get ToLower dataType "nonexistent_type" "" = "string".
Proof.
  split; [apply Get_missing|].
  split; [|reflexivity].
  intros Hnot. now apply Get_missing, dataType_missing.
Qed.

(** C7 on the name "UUID", which normalises to "uuid"; the built-in table
    has no such entry. *)
Lemma Get_unmapped_is_default_witness :
  Get ToLower dataType "UUID" "uuid" = "string".
Proof.
  destruct (Get_unmapped_is_default ToLower dataType "UUID" "uuid")
    as [Hmissing _].
  apply Hmissing. reflexivity.
Defined.

(** C2. For the type "tinyint" the result is "bool" exactly when the
    detail string, white space trimmed at both ends, starts with
    "tinyint(1)", and "int32" for every other detail string; so
    "tinyint(1) unsigned" gives "bool", and "tinyint(4)" and the empty
    detail give "int32". *)
Theorem Get_tinyint_bool_iff_prefix (d : string) :
  (Get ToLower dataType "tinyint" d = "bool" <->
   exists rest, TrimSpace d = "tinyint(1)" +:+ rest)
  /\ (Get ToLower dataType "tinyint" d = "int32" <->
      ~ exists rest, TrimSpace d = "tinyint(1)" +:+ rest)
  /\ Get ToLower dataType "tinyint" "tinyint(1) unsigned" = "bool"
  /\ Get ToLower dataType "tinyint" "tinyint(4)" = "int32"
  /\ Get ToLower dataType "tinyint" "" = "int32".
Proof.
  rewrite (Get_found ToLower dataType "tinyint" d tinyint_mapping
             dataType_tinyint).
  unfold tinyint_mapping. rewrite <- HasPrefix_true.
  destruct (HasPrefix (TrimSpace d) "tinyint(1)").
  - split; [easy|]. split; [|repeat split; reflexivity].
    split; [discriminate | intros H; now destruct H].
  - split; [split; discriminate|]. split; [|repeat split; reflexivity].
    split; [discriminate | reflexivity].
Qed.

(** C10. [GetDataType] is [Get] with the empty detail string: a name with
    no entry gets "string", which is not the empty string, and a name
    mapped as "tinyint" is gets "int32", the empty detail never starting
    with "tinyint(1)". *)
Theorem GetDataType_is_Get_with_empty_detail
    (lower : string -> string) (m : dataTypeMap) (t : string) :
  GetDataType lower m t = Get lower m t ""
  /\ (m !! lower t = None ->
      GetDataType lower m t = "string" /\ GetDataType lower m t <> "")
  /\ (m !! lower t = Some tinyint_mapping -> GetDataType lower m t = "int32")
  /\ GetDataType ToLower dataType "tinyint" = "int32".
Proof.
  split; [reflexivity|]. split; [|split; [|reflexivity]].
  - intros Hnone. unfold GetDataType. rewrite (Get_missing _ _ _ _ Hnone).
    split; [reflexivity | discriminate].
  - intros Hsome. unfold GetDataType. now rewrite (Get_found _ _ _ _ _ Hsome).
Qed.

(** C10 on the built-in table: "uuid" has no entry, "TINYINT" normalises
    to the entry of "tinyint". *)
Lemma GetDataType_is_Get_with_empty_detail_witness :
  (GetDataType ToLower dataType "uuid" = "string"
   /\ GetDataType ToLower dataType "uuid" <> "")
  /\ GetDataType ToLower dataType "TINYINT" = "int32".
Proof.
  split.
  - destruct (GetDataType_is_Get_with_empty_detail ToLower dataType "uuid")
      as (_ & Hmissing & _).
    apply Hmissing. reflexivity.
  - destruct (GetDataType_is_Get_with_empty_detail ToLower dataType "TINYINT")
      as (_ & _ & Htiny & _).
    apply Htiny. reflexivity.
Defined.

(** C1, at a key with a capital letter. [SetDataType] stores the mapping
    under "Custom" as spelled, [Get] looks "Custom" up as "custom": the
    mapping just registered is in the map and is not found under any
    spelling, and the answer is the default "string" whatever the mapping
    returns, "int64" in the example. *)
Theorem SetDataType_capital_key_not_found (fn : dataTypeMapping) (d : string) :
  let registered := SetDataType "Custom" fn dataType in
  registered !! "Custom" = Some fn
  /\ Get ToLower registered "Custom" d = "string"
  /\ Get ToLower registered "custom" d = "string"
  /\ Get ToLower registered "CUSTOM" d = "string"
  /\ Get ToLower (SetDataType "Custom" (fun _ => "int64") dataType)
       "Custom" "bigint(20)" = "string".
Proof. repeat split; reflexivity. Qed.

(** ** Field descriptors: kind, tags and escaping *)

Section FieldFacts.

Context {GormTag Relation : Type}.
Implicit Type m : Field GormTag Relation.

Lemma TrimLeft_stars (n : nat) (typ : string) :
  TrimLeft (stars n +:+ typ) "*" = TrimLeft typ "*".
Proof. induction n as [|n IH]; [reflexivity | exact IH]. Qed.

(** The [switch] of [GenType] computes the table [gen_kinds]. *)
Lemma switch_classify (typ : string) :
  (if case_of typ ["string"; "bytes"] then Title typ
   else if case_of typ ["int"; "int8"; "int16"; "int32"; "int64";
                        "uint"; "uint8"; "uint16"; "uint32"; "uint64"]
   then Title typ
   else if case_of typ ["float64"; "float32"] then Title typ
   else if case_of typ ["bool"] then Title typ
   else if case_of typ ["time.Time"] then "Time"
   else if case_of typ ["json.RawMessage"; "[]byte"] then "Bytes"
   else if case_of typ ["serializer"] then "Serializer"
   else "Field") = classify typ.
Proof.
  unfold classify, case_of, gen_kinds. cbn [existsb assoc].
  repeat match goal with
    | |- context [String.eqb typ ?label] =>
        destruct (String.eqb_spec typ label) as [->|_];
        [reflexivity | cbn [orb]]
    end.
  reflexivity.
Qed.

Lemma GenType_unfold m :
  GenType m =
  if IsRelation m then Type_ m
  else if negb (String.eqb (CustomGenType m) "") then CustomGenType m
  else classify (TrimLeft (Type_ m) "*").
Proof. unfold GenType. now rewrite switch_classify. Qed.

Lemma last_byte_underscore (s : string) :
  last_byte (s +:+ "_") = Some "_"%char.
Proof.
  induction s as [|c s IH]; [reflexivity|].
  simpl. rewrite IH. now destruct (s +:+ "_").
Qed.

Lemma FullMatch_escaped (g : KeyWord) (name : string) :
  no_trailing_underscore g = true -> FullMatch g (name +:+ "_") = false.
Proof.
  unfold no_trailing_underscore. rewrite forallb_forall. intros Hall.
  destruct (FullMatch g (name +:+ "_")) eqn:Hm; [|reflexivity].
  apply FullMatch_In, Hall in Hm.
  unfold ends_in_underscore in Hm. now rewrite last_byte_underscore in Hm.
Qed.

End FieldFacts.

(** C3, as the specification words it, fails on a type with two pointer
    markers: [GenType] strips both and answers "Int64", stripping a single
    one leaves "*int64", which no row of the table has. *)
Lemma GenType_single_strip_counterexample :
  GenType (plain_field "ID" "**int64") = "Int64"
  /\ GenType_single_strip (plain_field "ID" "**int64") = "Field"
  /\ GenType (plain_field "ID" "**int64")
     <> GenType_single_strip (plain_field "ID" "**int64").
Proof. split; [reflexivity | split; [reflexivity | discriminate]]. Qed.

(** C3, amended. A relation field gives its type string as stored, custom
    override or not; another field with a custom override gives the
    override; any other field gives the kind of its type string with
    every leading pointer marker stripped, as the table [gen_kinds] has
    it: the string, integer, float and bool types under their capitalised
    names, "time.Time" as "Time", "[]byte" and "json.RawMessage" as
    "Bytes", "serializer" as "Serializer".  So leading markers never
    change the kind of a field that is not a relation, and "*int64" is
    classified as "int64" is. *)
Theorem GenType_algorithm {GormTag Relation : Type}
    (m : Field GormTag Relation) :
  (IsRelation m = true -> GenType m = Type_ m)
  /\ (IsRelation m = false -> CustomGenType m <> "" ->
      GenType m = CustomGenType m)
  /\ (IsRelation m = false -> CustomGenType m = "" ->
      GenType m = classify (TrimLeft (Type_ m) "*"))
  /\ (IsRelation m = false ->
      forall n, GenType (set_Type (stars n +:+ Type_ m) m) = GenType m)
  /\ (IsRelation m = false ->
      GenType (set_Type "*int64" m) = GenType (set_Type "int64" m)).
Proof.
  rewrite !GenType_unfold.
  split; [now intros ->|].
  split; [intros -> Hc; now destruct (String.eqb_spec (CustomGenType m) "")|].
  split; [now intros -> ->|].
  split.
  - intros Hrel n. rewrite GenType_unfold.
    change (IsRelation (set_Type (stars n +:+ Type_ m) m))
      with (IsRelation m).
    cbn [set_Type CustomGenType Type_].
    now rewrite TrimLeft_stars, Hrel.
  - intros Hrel.
    change (IsRelation (set_Type "*int64" m)) with (IsRelation m).
    change (IsRelation (set_Type "int64" m)) with (IsRelation m).
    now rewrite Hrel.
Qed.

(** C3 at work: a relation field with an override, a field with an
    override, a pointer to a time, and three markers on a byte slice. *)
Lemma GenType_algorithm_witness :
  GenType (mkField "Owner" "*User" "" "" false ∅ "" "Custom" (Some tt))
  = "*User"
  /\ GenType (mkField "Age" "*int64" "" "" false ∅ "" "Custom" (@None unit))
     = "Custom"
  /\ GenType (plain_field "At" "*time.Time") = "Time"
  /\ GenType (set_Type (stars 3 +:+ "[]byte") (plain_field "Raw" "[]byte"))
     = "Bytes".
Proof.
  split; [|split; [|split]].
  - destruct (GenType_algorithm
                (mkField "Owner" "*User" "" "" false ∅ "" "Custom" (Some tt)))
      as (H & _).
    apply H. reflexivity.
  - destruct (GenType_algorithm
                (mkField "Age" "*int64" "" "" false ∅ "" "Custom" (@None unit)))
      as (_ & H & _).
    apply H; [reflexivity | discriminate].
  - destruct (GenType_algorithm (plain_field "At" "*time.Time"))
      as (_ & _ & H & _).
    rewrite H; reflexivity.
  - destruct (GenType_algorithm (plain_field "Raw" "[]byte"))
      as (_ & _ & _ & H & _).
    etransitivity; [exact (H eq_refl 3) | reflexivity].
Defined.

(** C5. When the tag map has an entry under the primary key, [Tags]
    renders the map as it is and changes nothing.  Otherwise it renders
    the secondary tag and trims it: if text is left, the text is installed
    under the primary key and the map so extended is rendered; if none is
    left, the map is rendered as it is.  A second call right after the
    first returns the same text and leaves the descriptor as the first
    left it. *)
Theorem Tags_primary_else_secondary {GormTag Relation : Type}
    (TagKeyGorm : string) (Tag_Build : gmap string string -> string)
    (GormTag_Build : GormTag -> string) (m : Field GormTag Relation) :
  let Tags := Tags TagKeyGorm Tag_Build GormTag_Build in
  let gormTag := TrimSpace (GormTag_Build (GORMTag m)) in
  (is_Some (Tag m !! TagKeyGorm) -> Tags m = (Tag_Build (Tag m), m))
  /\ (Tag m !! TagKeyGorm = None -> gormTag <> "" ->
      Tags m = (Tag_Build (<[TagKeyGorm := gormTag]> (Tag m)),
                set_Tag (<[TagKeyGorm := gormTag]> (Tag m)) m))
  /\ (Tag m !! TagKeyGorm = None -> gormTag = "" ->
      Tags m = (Tag_Build (Tag m), m))
  /\ fst (Tags (snd (Tags m))) = fst (Tags m)
  /\ snd (Tags (snd (Tags m))) = snd (Tags m).
Proof.
  intros Tags0 gormTag. subst Tags0. unfold Tags. fold gormTag.
  destruct (Tag m !! TagKeyGorm) as [v|] eqn:Hkey.
  - repeat split; try discriminate; cbn [fst snd]; now rewrite Hkey.
  - destruct (String.eqb_spec gormTag "") as [Hempty|Hfull].
    + repeat split; try (intros [? [=]]); try easy;
        cbn [fst snd]; rewrite Hkey; fold gormTag;
        now destruct (String.eqb_spec gormTag "").
    + repeat split; try (intros [? [=]]); try easy;
        cbn [fst snd set_Tag Tag]; unfold Tag_Set;
        now rewrite lookup_insert_eq.
Qed.

(** C5 at work, with the key "gorm": a descriptor whose map has the key,
    one whose secondary tag renders as " column:id " and one whose
    secondary tag renders as blanks. *)
Lemma Tags_primary_else_secondary_witness :
  fst (Tags "gorm" example_Tag_Build id
         (mkField "ID" "int64" "" "" false {["gorm" := "primaryKey"]}
            " column:id " "" (@None unit)))
  = "gorm:primaryKey"
  /\ fst (Tags "gorm" example_Tag_Build id
            (mkField "ID" "int64" "" "" false {["json" := "id"]}
               " column:id " "" (@None unit)))
     = example_Tag_Build {["gorm" := "column:id"; "json" := "id"]}
  /\ fst (Tags "gorm" example_Tag_Build id
            (mkField "ID" "int64" "" "" false {["json" := "id"]}
               "  " "" (@None unit)))
     = "json:id".
Proof.
  split; [|split].
  - destruct (Tags_primary_else_secondary "gorm" example_Tag_Build id
                (mkField "ID" "int64" "" "" false {["gorm" := "primaryKey"]}
                   " column:id " "" (@None unit))) as (H & _).
    rewrite H; [reflexivity | now exists "primaryKey"].
  - destruct (Tags_primary_else_secondary "gorm" example_Tag_Build id
                (mkField "ID" "int64" "" "" false {["json" := "id"]}
                   " column:id " "" (@None unit))) as (_ & H & _).
    rewrite H; [reflexivity | reflexivity | discriminate].
  - destruct (Tags_primary_else_secondary "gorm" example_Tag_Build id
                (mkField "ID" "int64" "" "" false {["json" := "id"]}
                   "  " "" (@None unit))) as (_ & _ & H & _).
    rewrite H; reflexivity.
Defined.

(** C6. [EscapeKeywordFor] appends one underscore to the name when the
    name is a member of the keyword set and changes nothing otherwise; the
    descriptor it returns is the one it was called on, every other field
    as before.  When no word of the set ends in an underscore, a second
    call with the same set changes nothing more; none of the three
    keyword lists has such a word, and "Find" escaped against the
    query-builder set is "Find_" after one call and after two. *)
Theorem EscapeKeywordFor_appends_once {GormTag Relation : Type}
    (keywords : KeyWord) (m : Field GormTag Relation) :
  (FullMatch keywords (Name m) = true ->
   EscapeKeywordFor keywords m = set_Name (Name m +:+ "_") m)
  /\ (FullMatch keywords (Name m) = false -> EscapeKeywordFor keywords m = m)
  /\ set_Name (Name m) (EscapeKeywordFor keywords m) = m
  /\ (no_trailing_underscore keywords = true ->
      EscapeKeywordFor keywords (EscapeKeywordFor keywords m)
      = EscapeKeywordFor keywords m)
  /\ no_trailing_underscore GormKeywords = true
  /\ no_trailing_underscore DOKeywords = true
  /\ no_trailing_underscore GenKeywords = true
  /\ Name (EscapeKeyword (plain_field "Find" "string")) = "Find_"
  /\ Name (EscapeKeyword (EscapeKeyword (plain_field "Find" "string")))
     = "Find_".
Proof.
  unfold EscapeKeywordFor at 1 2 3.
  destruct (FullMatch keywords (Name m)) eqn:Hm.
  - split; [reflexivity|]. split; [discriminate|].
    split; [now destruct m|]. split; [|repeat split; reflexivity].
    intros Hno. unfold EscapeKeywordFor.
    rewrite Hm. cbn [set_Name Name].
    now rewrite (FullMatch_escaped keywords (Name m) Hno).
  - split; [discriminate|]. split; [reflexivity|].
    split; [now destruct m|]. split; [|repeat split; reflexivity].
    intros _. unfold EscapeKeywordFor. now rewrite !Hm.
Qed.

(** C6 at work on the data-object set: "Alias" is renamed once, "Email"
    is left alone. *)
Lemma EscapeKeywordFor_appends_once_witness :
  Name (EscapeKeywordFor DOKeywords (plain_field "Alias" "string")) = "Alias_"
  /\ EscapeKeywordFor DOKeywords
       (EscapeKeywordFor DOKeywords (plain_field "Alias" "string"))
     = EscapeKeywordFor DOKeywords (plain_field "Alias" "string")
  /\ EscapeKeywordFor DOKeywords (plain_field "Email" "string")
     = plain_field "Email" "string".
Proof.
  split; [|split].
  - destruct (EscapeKeywordFor_appends_once DOKeywords
                (plain_field "Alias" "string")) as (H & _).
    rewrite H; reflexivity.
  - destruct (EscapeKeywordFor_appends_once DOKeywords
                (plain_field "Alias" "string")) as (_ & _ & _ & H & _).
    apply H. reflexivity.
  - destruct (EscapeKeywordFor_appends_once DOKeywords
                (plain_field "Email" "string")) as (_ & H & _).
    apply H. reflexivity.
Defined.

(** * Further properties of the code *)

(** ** The registry: what the built-in table answers *)

Lemma dataType_lookup_builtin (k : string) (fn : dataTypeMapping) :
  dataType !! k = Some fn -> In (k, fn) builtin.
Proof.
  intros Hk. apply list_elem_of_In.
  now apply (elem_of_list_to_map_2 (M := gmap string)) in Hk.
Qed.

Lemma builtin_results (k : string) (fn : dataTypeMapping) (d : string) :
  In (k, fn) builtin ->
  In (fn d) go_types /\ (k <> "tinyint" -> forall d', fn d = fn d').
Proof.
  unfold builtin. cbn [In].
  intros H.
  repeat (destruct H as [H|H];
          [injection H as <- <-; split;
           [cbn; tauto | intros _ d'; reflexivity] |]).
  destruct H as [H|[]]. injection H as <- <-. split; [|intros Hk; now destruct Hk].
  unfold tinyint_mapping.
  destruct (HasPrefix (TrimSpace d) "tinyint(1)"); cbn; tauto.
Qed.

Lemma Get_builtin_go_type (lower : string -> string) (t d : string) :
  In (Get lower dataType t d) go_types.
Proof.
  unfold Get. destruct (dataType !! lower t) as [fn|] eqn:Hk.
  - apply dataType_lookup_builtin in Hk.
    now apply (builtin_results _ _ d) in Hk.
  - cbn. tauto.
Qed.

(** X1. Whatever the type name and the detail string, a lookup in the
    built-in registry answers one of nine Go type strings; it never answers
    the empty string. *)
Theorem Get_builtin_range (lower : string -> string) (t d : string) :
  In (Get lower dataType t d) go_types /\ Get lower dataType t d <> "".
Proof.
  pose proof (Get_builtin_go_type lower t d) as Hin.
  split; [exact Hin|].
  intros Hempty. rewrite Hempty in Hin. cbn in Hin.
  repeat (destruct Hin as [Hin|Hin]; [discriminate|]). contradiction.
Qed.

(** X2. In the built-in registry only "tinyint" reads the detail string:
    for a name whose normal form is not "tinyint", two lookups with
    different detail strings answer the same. *)
Theorem Get_builtin_ignores_detail
    (lower : string -> string) (t d1 d2 : string) :
  lower t <> "tinyint" ->
  Get lower dataType t d1 = Get lower dataType t d2.
Proof.
  intros Hne. unfold Get.
  destruct (dataType !! lower t) as [fn|] eqn:Hk; [|reflexivity].
  apply dataType_lookup_builtin in Hk.
  apply (builtin_results _ _ d1) in Hk as [_ Hsame]. now apply Hsame.
Qed.

(** X2 on "VARCHAR" with two lengths. *)
Lemma Get_builtin_ignores_detail_witness :
  Get ToLower dataType "VARCHAR" "varchar(10)"
  = Get ToLower dataType "VARCHAR" "varchar(255)".
Proof.
  apply (Get_builtin_ignores_detail ToLower "VARCHAR"). discriminate.
Defined.

(** ** The registry: what a registration changes *)

Lemma lower_byte_idempotent (c : ascii) :
  lower_byte (lower_byte c) = lower_byte c.
Proof. destruct c as [[] [] [] [] [] [] [] []]; reflexivity. Qed.

Lemma ToLower_idempotent (s : string) : ToLower (ToLower s) = ToLower s.
Proof.
  induction s as [|c s IH]; [reflexivity|].
  cbn. now rewrite lower_byte_idempotent; f_equal.
Qed.

Lemma Get_SetDataType_other (lower : string -> string) (m : dataTypeMap)
    (k t d : string) (fn : dataTypeMapping) :
  lower t <> k -> Get lower (SetDataType k fn m) t d = Get lower m t d.
Proof.
  intros Hne. unfold Get, SetDataType.
  rewrite lookup_insert_ne; [reflexivity | congruence].
Qed.

(** X3. A mapping registered under a key is the one applied to every name
    whose normal form is that key, whatever the registry held before, a
    built-in entry included; of two registrations under the same key the
    later one wins, and the registry is as if the earlier had not been
    made. *)
Theorem SetDataType_round_trip (lower : string -> string) (m : dataTypeMap)
    (k t d : string) (fn fn2 : dataTypeMapping) :
  lower t = k ->
  Get lower (SetDataType k fn m) t d = fn d
  /\ Get lower (SetDataType k fn2 (SetDataType k fn m)) t d = fn2 d
  /\ SetDataType k fn2 (SetDataType k fn m) = SetDataType k fn2 m.
Proof.
  intros Hk. split; [|split].
  - apply Get_found. unfold SetDataType. rewrite Hk. apply lookup_insert_eq.
  - apply Get_found. unfold SetDataType. rewrite Hk. apply lookup_insert_eq.
  - unfold SetDataType. apply insert_insert_eq.
Qed.

(** X3 on the built-in registry: a registration under "tinyint" replaces
    the built-in mapping for every spelling of the name. *)
Lemma SetDataType_round_trip_witness :
  Get ToLower (SetDataType "tinyint" (fun _ => "int8") dataType)
    "TinyInt" "tinyint(1)" = "int8".
Proof.
  destruct (SetDataType_round_trip ToLower dataType "tinyint" "TinyInt"
              "tinyint(1)" (fun _ => "int8") (fun _ => "int8") eq_refl)
    as [H _].
  exact H.
Defined.

(** X4. A registration under a key changes no lookup of a name whose
    normal form is another key.  So, the normalisation being idempotent, a
    registration under a key that is not its own normal form changes no
    lookup at all. *)
Theorem SetDataType_reaches_only_its_key (lower : string -> string)
    (m : dataTypeMap) (k : string) (fn : dataTypeMapping) :
  (forall t d, lower t <> k ->
     Get lower (SetDataType k fn m) t d = Get lower m t d)
  /\ ((forall s, lower (lower s) = lower s) -> lower k <> k ->
      forall t d, Get lower (SetDataType k fn m) t d = Get lower m t d).
Proof.
  split.
  - intros t d Hne. now apply Get_SetDataType_other.
  - intros Hidem Hk t d. apply Get_SetDataType_other.
    intros Heq. apply Hk. rewrite <- Heq. apply Hidem.
Qed.

(** X4 on the built-in registry: after a registration under "json" the
    name "BIGINT" is answered as before, and after one under "Json" so is
    the name "Json". *)
Lemma SetDataType_reaches_only_its_key_witness :
  Get ToLower (SetDataType "json" (fun _ => "[]byte") dataType) "BIGINT" ""
  = Get ToLower dataType "BIGINT" ""
  /\ Get ToLower (SetDataType "Json" (fun _ => "[]byte") dataType) "Json" ""
     = Get ToLower dataType "Json" "".
Proof.
  split.
  - destruct (SetDataType_reaches_only_its_key ToLower dataType "json"
                (fun _ => "[]byte")) as [H _].
    apply H. discriminate.
  - destruct (SetDataType_reaches_only_its_key ToLower dataType "Json"
                (fun _ => "[]byte")) as [_ H].
    apply H; [apply ToLower_idempotent | discriminate].
Defined.

(** ** Field descriptors: the kinds [GenType] answers *)

Lemma classify_range (typ : string) : In (classify typ) gen_kind_names.
Proof.
  unfold classify, gen_kinds. cbn [assoc].
  repeat match goal with
    | |- context [String.eqb typ ?label] =>
        destruct (String.eqb typ label); [cbn; tauto|]
    end.
  cbn; tauto.
Qed.

Lemma classify_go_type (ty : string) :
  In ty go_types ->
  TrimLeft ty "*" = ty /\ (classify ty = "Field" <-> ty = "[]uint8").
Proof.
  cbn [In go_types]. intros H.
  repeat (destruct H as [<-|H]; [split; [reflexivity|split; discriminate]|]).
  destruct H as [<-|H]; [split; [reflexivity | split; reflexivity]|].
  destruct H as [<-|[]]. split; [reflexivity|split; discriminate].
Qed.

(** X5. For a field that is not a relation, [GenType] never answers the
    empty string, and without a custom override it answers one of the
    eighteen kinds of the switch, whatever the type string is. *)
Theorem GenType_closed_range {GormTag Relation : Type}
    (m : Field GormTag Relation) :
  IsRelation m = false ->
  GenType m <> ""
  /\ (CustomGenType m = "" -> In (GenType m) gen_kind_names).
Proof.
  intros Hrel. rewrite GenType_unfold, Hrel.
  pose proof (classify_range (TrimLeft (Type_ m) "*")) as Hin.
  destruct (String.eqb_spec (CustomGenType m) "") as [Hc|Hc]; cbn [negb].
  - split; [|intros _; exact Hin].
    intros Hempty. rewrite Hempty in Hin. cbn in Hin.
    repeat (destruct Hin as [Hin|Hin]; [discriminate|]). contradiction.
  - split; [exact Hc | intros Hc'; contradiction].
Qed.

(** X5 on a field of a type the switch does not know. *)
Lemma GenType_closed_range_witness :
  GenType (plain_field "Meta" "map[string]any") <> ""
  /\ In (GenType (plain_field "Meta" "map[string]any")) gen_kind_names.
Proof.
  destruct (GenType_closed_range (plain_field "Meta" "map[string]any")
              eq_refl) as [H1 H2].
  split; [exact H1 | exact (H2 eq_refl)].
Defined.

(** X6. The registry and [GenType] together: a field that is not a
    relation, has no custom override and whose type is what the built-in
    registry answers, behind any number of pointer markers, gets the kind
    of that type; the kind is the fallback "Field" exactly when the type
    is "[]uint8", which the registry answers for "bit". *)
Theorem GenType_of_builtin_type {GormTag Relation : Type}
    (lower : string -> string) (t d : string) (n : nat)
    (m : Field GormTag Relation) :
  IsRelation m = false ->
  CustomGenType m = "" ->
  Type_ m = stars n +:+ Get lower dataType t d ->
  GenType m = classify (Get lower dataType t d)
  /\ (GenType m = "Field" <-> Get lower dataType t d = "[]uint8").
Proof.
  intros Hrel Hcustom Htype.
  rewrite GenType_unfold, Hrel, Hcustom, Htype, TrimLeft_stars.
  cbn [String.eqb negb].
  destruct (classify_go_type _ (Get_builtin_go_type lower t d)) as [-> Hiff].
  split; [reflexivity | exact Hiff].
Qed.

(** X6 on a nullable "DATETIME" column and on a "bit" column. *)
Lemma GenType_of_builtin_type_witness :
  GenType (plain_field "At" "*time.Time") = "Time"
  /\ GenType (plain_field "Flags" "[]uint8") = "Field".
Proof.
  split.
  - destruct (GenType_of_builtin_type ToLower "DATETIME" "datetime(6)" 1
                (plain_field "At" "*time.Time") eq_refl eq_refl eq_refl)
      as [H _].
    exact H.
  - destruct (GenType_of_builtin_type ToLower "bit" "bit(8)" 0
                (plain_field "Flags" "[]uint8") eq_refl eq_refl eq_refl)
      as [_ H].
    apply H. reflexivity.
Defined.

(** ** Field descriptors: what escaping and tag rendering leave alone *)

(** X7. When no word of the keyword set ends in an underscore, as in the
    three sets of the package, the name that [EscapeKeywordFor] leaves is
    not a member of the set. *)
Theorem EscapeKeywordFor_clears_match {GormTag Relation : Type}
    (keywords : KeyWord) (m : Field GormTag Relation) :
  no_trailing_underscore keywords = true ->
  FullMatch keywords (Name (EscapeKeywordFor keywords m)) = false.
Proof.
  intros Hno. unfold EscapeKeywordFor.
  destruct (FullMatch keywords (Name m)) eqn:Hm; [|exact Hm].
  cbn [set_Name Name]. now apply FullMatch_escaped.
Qed.

(** X7 on the query-builder set and a field named "Select". *)
Lemma EscapeKeywordFor_clears_match_witness :
  FullMatch GormKeywords (Name (EscapeKeyword (plain_field "Select" "string")))
  = false.
Proof.
  apply (EscapeKeywordFor_clears_match GormKeywords
           (plain_field "Select" "string")).
  reflexivity.
Defined.

(** X8. Escaping can merge two names: when a word of the set does not end
    in an underscore and neither does any other, a descriptor named by the
    word and the same descriptor named by the word with an underscore
    appended come out of [EscapeKeywordFor] as the same descriptor. *)
Theorem EscapeKeywordFor_merges_names {GormTag Relation : Type}
    (keywords : KeyWord) (w : string) (m : Field GormTag Relation) :
  In w (words keywords) ->
  no_trailing_underscore keywords = true ->
  EscapeKeywordFor keywords (set_Name w m)
  = EscapeKeywordFor keywords (set_Name (w +:+ "_") m)
  /\ Name (EscapeKeywordFor keywords (set_Name w m)) = w +:+ "_".
Proof.
  intros Hin Hno. unfold EscapeKeywordFor. cbn [set_Name Name].
  apply FullMatch_In in Hin. rewrite Hin.
  rewrite (FullMatch_escaped keywords w Hno).
  split; reflexivity.
Qed.

(** X8 on the query-builder set: fields named "Count" and "Count_". *)
Lemma EscapeKeywordFor_merges_names_witness :
  EscapeKeyword (plain_field "Count" "int64")
  = EscapeKeyword (plain_field "Count_" "int64").
Proof.
  destruct (EscapeKeywordFor_merges_names GormKeywords "Count"
              (plain_field "Count" "int64")) as [H _].
  - cbn. tauto.
  - reflexivity.
  - exact H.
Defined.

(** X9. Escaping changes the name and nothing that the other methods
    read: the kind and the relation flag are as before, and rendering the
    tags after escaping gives the text that rendering before escaping
    gives, and the same descriptor. *)
Theorem EscapeKeywordFor_only_renames {GormTag Relation : Type}
    (TagKeyGorm : string) (Tag_Build : gmap string string -> string)
    (GormTag_Build : GormTag -> string)
    (keywords : KeyWord) (m : Field GormTag Relation) :
  GenType (EscapeKeywordFor keywords m) = GenType m
  /\ IsRelation (EscapeKeywordFor keywords m) = IsRelation m
  /\ Tags TagKeyGorm Tag_Build GormTag_Build (EscapeKeywordFor keywords m)
     = (fst (Tags TagKeyGorm Tag_Build GormTag_Build m),
        EscapeKeywordFor keywords
          (snd (Tags TagKeyGorm Tag_Build GormTag_Build m))).
Proof.
  unfold EscapeKeywordFor, Tags.
  destruct (FullMatch keywords (Name m)) eqn:Hm.
  - split; [reflexivity|]. split; [reflexivity|].
    cbn [set_Name Tag GORMTag Name].
    destruct (Tag m !! TagKeyGorm); cbn [fst snd Name]; rewrite ?Hm;
      [reflexivity|].
    destruct (String.eqb _ ""); cbn [set_Tag Name Tag]; now rewrite Hm.
  - split; [reflexivity|]. split; [reflexivity|].
    destruct (Tag m !! TagKeyGorm); cbn [fst snd Name]; rewrite ?Hm;
      [reflexivity|].
    destruct (String.eqb _ ""); cbn [set_Tag Name Tag]; now rewrite Hm.
Qed.

(** X10. [Tags] writes at most one entry of the tag map and no other
    field: every entry under another key is as before, an entry already
    under the primary key is kept, the entry it installs is never the
    empty string, the descriptor is otherwise unchanged, and so is its
    kind. *)
Theorem Tags_writes_only_primary_key {GormTag Relation : Type}
    (TagKeyGorm : string) (Tag_Build : gmap string string -> string)
    (GormTag_Build : GormTag -> string) (m : Field GormTag Relation) :
  let m' := snd (Tags TagKeyGorm Tag_Build GormTag_Build m) in
  (forall k, k <> TagKeyGorm -> Tag m' !! k = Tag m !! k)
  /\ (forall v, Tag m !! TagKeyGorm = Some v -> Tag m' !! TagKeyGorm = Some v)
  /\ (Tag m !! TagKeyGorm = None -> Tag m' !! TagKeyGorm <> Some "")
  /\ set_Tag (Tag m) m' = m
  /\ GenType m' = GenType m.
Proof.
  cbv zeta. unfold Tags.
  destruct (Tag m !! TagKeyGorm) as [v|] eqn:Hkey; cbn [snd].
  - split; [reflexivity|]. split; [intros v' Hv'; now rewrite Hkey|].
    split; [discriminate|]. split; [now destruct m | reflexivity].
  - destruct (String.eqb_spec (TrimSpace (GormTag_Build (GORMTag m))) "")
      as [Hempty|Hfull].
    + split; [reflexivity|]. split; [discriminate|].
      split; [intros _; rewrite Hkey; discriminate|].
      split; [now destruct m | reflexivity].
    + unfold Tag_Set. cbn [set_Tag Tag].
      split; [intros k Hk; now rewrite lookup_insert_ne|].
      split; [discriminate|].
      split; [intros _; rewrite lookup_insert_eq; congruence|].
      split; [now destruct m | reflexivity].
Qed.

(** X10 on a descriptor with a "json" entry and a secondary tag. *)
Lemma Tags_writes_only_primary_key_witness :
  Tag (snd (Tags "gorm" example_Tag_Build id
              (mkField "ID" "int64" "" "" false {["json" := "id"]}
                 " column:id " "" (@None unit)))) !! "json"
  = Some "id"
  /\ Tag (snd (Tags "gorm" example_Tag_Build id
                 (mkField "ID" "int64" "" "" false {["json" := "id"]}
                    " column:id " "" (@None unit)))) !! "gorm"
     <> Some "".
Proof.
  destruct (Tags_writes_only_primary_key "gorm" example_Tag_Build id
              (mkField "ID" "int64" "" "" false {["json" := "id"]}
                 " column:id " "" (@None unit))) as (H1 & _ & H3 & _).
  split.
  - rewrite H1; [reflexivity | discriminate].
  - apply H3. reflexivity.
Defined.

(** ** Keyword sets: how the two tests relate *)

Lemma string_app_assoc (a b c : string) : (a +:+ b) +:+ c = a +:+ b +:+ c.
Proof.
  induction a as [|x a IH]; [reflexivity|].
  change (String x ((a +:+ b) +:+ c) = String x (a +:+ b +:+ c)).
  now f_equal.
Qed.

Lemma string_app_empty_r (a : string) : a +:+ "" = a.
Proof.
  induction a as [|x a IH]; [reflexivity|].
  change (String x (a +:+ "") = String x a). now f_equal.
Qed.

Lemma substring_of_extend (item text pre post : string) :
  substring_of item text -> substring_of item (pre +:+ text +:+ post).
Proof.
  intros (p & q & ->). exists (pre +:+ p), (q +:+ post).
  now rewrite !string_app_assoc.
Qed.

(** X11. A word that [FullMatch] accepts is accepted by [Contain] too,
    and a text that [Contain] accepts is still accepted with anything put
    before and after it. *)
Theorem FullMatch_Contain_extend (g : KeyWord) (text pre post : string) :
  (FullMatch g text = true -> Contain g text = true)
  /\ (Contain g text = true -> Contain g (pre +:+ text +:+ post) = true).
Proof.
  split.
  - intros Hm. apply Contain_substring. exists text.
    split; [now apply FullMatch_In|].
    exists EmptyString, EmptyString.
    change (text = text +:+ ""). now rewrite string_app_empty_r.
  - intros Hc. apply Contain_substring in Hc as (item & Hin & Hsub).
    apply Contain_substring. exists item.
    split; [exact Hin | now apply substring_of_extend].
Qed.

(** X11 on the data-object set: "Alias" and a text around it. *)
Lemma FullMatch_Contain_extend_witness :
  Contain DOKeywords "Alias" = true
  /\ Contain DOKeywords "func (u user) Alias() string" = true.
Proof.
  destruct (FullMatch_Contain_extend DOKeywords "Alias"
              "func (u user) " "() string") as [H1 H2].
  split; [apply H1; reflexivity | apply H2; reflexivity].
Defined.

(** X12. The empty text and the empty word: [Contain] accepts the empty
    text exactly when [FullMatch] does, that is when the empty word is a
    member, and a set with the empty word as a member has [Contain] accept
    every text. *)
Theorem Contain_empty_word (g : KeyWord) (text : string) :
  Contain g "" = FullMatch g ""
  /\ (Contain g "" = true <-> In "" (words g))
  /\ (In "" (words g) -> Contain g text = true).
Proof.
  assert (Heq : Contain g "" = FullMatch g "").
  { unfold Contain, FullMatch. induction (words g) as [|w ws IH];
      [reflexivity|].
    cbn [range_any]. rewrite IH. now destruct w. }
  split; [exact Heq|]. split; [rewrite Heq; apply FullMatch_In|].
  intros Hin. apply Contain_substring. exists "".
  split; [exact Hin | now exists "", text].
Qed.

(** X12 on a set with the empty word, and on the three sets of the
    package, which do not have it. *)
Lemma Contain_empty_word_witness :
  Contain {| words := ["Find"; ""] |} "anything" = true
  /\ Contain GormKeywords "" = false
  /\ Contain DOKeywords "" = false
  /\ Contain GenKeywords "" = false.
Proof.
  split.
  - destruct (Contain_empty_word {| words := ["Find"; ""] |} "anything")
      as (_ & _ & H).
    apply H. cbn. tauto.
  - repeat split; reflexivity.
Defined.

(** ** The SQL text buffer: what feeding keeps *)

Lemma feed_snoc (text : list ascii) (b : ascii) (s : SQLBuffer) :
  feed (text ++ [b]) s = WriteSQL b (feed text s).
Proof. unfold feed. now rewrite fold_left_app. Qed.

Lemma WriteSQL_appends (b : ascii) (s : SQLBuffer) :
  WriteSQL b s = s ++ [blank_to_space b] \/
  (WriteSQL b s = s /\ is_blank b = true /\ last s = Some " "%char).
Proof.
  unfold blank_to_space.
  destruct s as [|x l _] using rev_ind.
  - left. now rewrite WriteSQL_empty.
  - rewrite WriteSQL_snoc. destruct (is_blank b); [|now left].
    destruct (Ascii.eqb_spec x " "%char) as [->|Hx]; [|now left].
    right. now rewrite last_snoc.
Qed.

(** X13. [WriteSQL] only appends: after feeding any bytes the buffer is
    its old content followed by at most one byte per byte fed, and the
    bytes that are no blanks are all there, in the order fed. *)
Theorem feed_appends_keeping_solid_bytes (text : list ascii) (s : SQLBuffer) :
  (exists tail, feed text s = s ++ tail /\ length tail <= length text)
  /\ solid_bytes (feed text s) = solid_bytes s ++ solid_bytes text.
Proof.
  induction text as [|b text IH] using rev_ind.
  - split; [exists []; now rewrite app_nil_r|].
    cbn. now rewrite app_nil_r.
  - destruct IH as [(tail & Htail & Hlen) Hsolid].
    rewrite feed_snoc. unfold solid_bytes in *.
    rewrite (List.filter_app _ text [b]), length_app.
    cbn [length List.filter].
    destruct (WriteSQL_appends b (feed text s)) as [->|(-> & Hb & _)].
    + split.
      * exists (tail ++ [blank_to_space b]).
        rewrite Htail, <- app_assoc, length_app. cbn. split; [reflexivity|lia].
      * rewrite List.filter_app, Hsolid, <- app_assoc. f_equal.
        unfold blank_to_space. cbn.
        destruct (is_blank b) eqn:Hb; [reflexivity | now rewrite Hb].
    + split.
      * exists tail. split; [exact Htail | lia].
      * rewrite Hsolid, Hb. cbn. now rewrite app_nil_r.
Qed.

Lemma squeezed_snoc (l : list ascii) (x : ascii) :
  squeezed (l ++ [x]) =
  squeezed l && negb (is_tab_or_lf x) &&
  match last l with
  | Some c => negb (is_blank c && is_blank x)
  | None => true
  end.
Proof.
  unfold squeezed. rewrite forallb_app, no_blank_pair_snoc.
  cbn [forallb]. rewrite andb_true_r.
  destruct (forallb _ l), (negb (is_tab_or_lf x)), (no_blank_pair l);
    reflexivity.
Qed.

Lemma is_blank_cases (b : ascii) :
  is_blank b = is_tab_or_lf b || Ascii.eqb b " "%char.
Proof. reflexivity. Qed.

Lemma not_blank_not_tab_or_lf (b : ascii) :
  is_blank b = false -> is_tab_or_lf b = false.
Proof. rewrite is_blank_cases. now destruct (is_tab_or_lf b). Qed.

Lemma squeezed_WriteSQL (b : ascii) (s : SQLBuffer) :
  squeezed s = true -> squeezed (WriteSQL b s) = true.
Proof.
  intros Hs. destruct s as [|x l _] using rev_ind.
  - rewrite WriteSQL_empty. destruct (is_blank b) eqn:Hb; [reflexivity|].
    unfold squeezed. cbn. now rewrite (not_blank_not_tab_or_lf b Hb).
  - rewrite WriteSQL_snoc. destruct (is_blank b) eqn:Hb.
    + destruct (Ascii.eqb_spec x " "%char) as [->|Hx]; [exact Hs|].
      rewrite squeezed_snoc, Hs, last_snoc. cbn [andb negb is_tab_or_lf].
      rewrite squeezed_snoc in Hs.
      apply andb_prop in Hs as [Hs _]. apply andb_prop in Hs as [_ Hx'].
      rewrite is_blank_cases. destruct (is_tab_or_lf x); [discriminate|].
      now destruct (Ascii.eqb_spec x " "%char).
    + rewrite squeezed_snoc, Hs, last_snoc, Hb.
      rewrite (not_blank_not_tab_or_lf b Hb). now rewrite andb_false_r.
Qed.

Lemma squeezed_feed (text : list ascii) (s : SQLBuffer) :
  squeezed s = true -> squeezed (feed text s) = true.
Proof.
  revert s. induction text as [|b text IH]; intros s Hs; [exact Hs|].
  apply IH, squeezed_WriteSQL, Hs.
Qed.

Lemma squeezed_refeed (s : list ascii) :
  squeezed s = true -> feed s empty_buffer = s.
Proof.
  induction s as [|x l IH] using rev_ind; [reflexivity|].
  intros Hs. rewrite feed_snoc.
  rewrite squeezed_snoc in Hs.
  apply andb_prop in Hs as [Hs Hpair]. apply andb_prop in Hs as [Hl Hx].
  rewrite (IH Hl). clear IH.
  assert (Hsp : is_blank x = true -> x = " "%char).
  { rewrite is_blank_cases. destruct (is_tab_or_lf x); [discriminate|].
    cbn. now destruct (Ascii.eqb_spec x " "%char). }
  destruct l as [|c l' _] using rev_ind.
  - rewrite WriteSQL_empty. destruct (is_blank x); [|reflexivity].
    now rewrite Hsp.
  - rewrite WriteSQL_snoc. rewrite last_snoc in Hpair.
    destruct (is_blank x) eqn:Hbx; [|reflexivity].
    rewrite andb_true_r in Hpair. rewrite (Hsp eq_refl).
    destruct (Ascii.eqb_spec c " "%char) as [->|_]; [discriminate|reflexivity].
Qed.

(** X14. The text in a buffer fed from empty has no tab, no line feed and
    no two spaces in a row; feeding such a text to an empty buffer gives
    the text back; so feeding what a buffer holds to another empty buffer
    changes nothing: the collapsing is done in one pass. *)
Theorem feed_squeezes_once (text : list ascii) (s : list ascii) :
  squeezed (feed text empty_buffer) = true
  /\ (squeezed s = true -> feed s empty_buffer = s)
  /\ feed (feed text empty_buffer) empty_buffer = feed text empty_buffer.
Proof.
  assert (Hsq : squeezed (feed text empty_buffer) = true)
    by now apply squeezed_feed.
  split; [exact Hsq|]. split; [apply squeezed_refeed|].
  now apply squeezed_refeed.
Qed.

(** X14 on the text "a b, c". *)
Lemma feed_squeezes_once_witness :
  feed ["a"; " "; "b"; ","; " "; "c"]%char empty_buffer
  = ["a"; " "; "b"; ","; " "; "c"]%char.
Proof.
  destruct (feed_squeezes_once [] ["a"; " "; "b"; ","; " "; "c"]%char)
    as (_ & H & _).
  apply H. reflexivity.
Defined.

Lemma feed_prefix (text : list ascii) (s : SQLBuffer) :
  exists tail, feed text s = s ++ tail.
Proof.
  revert s. induction text as [|b text IH]; intros s.
  - exists []. cbn. now rewrite app_nil_r.
  - destruct (IH (WriteSQL b s)) as [tail Htail].
    change (feed (b :: text) s) with (feed text (WriteSQL b s)).
    rewrite Htail.
    destruct (WriteSQL_appends b s) as [->|(-> & _)].
    + exists (blank_to_space b :: tail). now rewrite <- app_assoc.
    + now exists tail.
Qed.

Lemma WriteSQL_last (b : ascii) (s : SQLBuffer) :
  last (WriteSQL b s) = Some (blank_to_space b).
Proof.
  destruct (WriteSQL_appends b s) as [->|(-> & Hb & Hlast)].
  - apply last_snoc.
  - unfold blank_to_space. now rewrite Hb.
Qed.

(** X15. Collapsing is not trimming: after any write the buffer ends in
    the byte written, a space standing for a blank; a buffer fed from
    empty starts with the first byte fed, a space standing for a blank;
    and it is empty only when nothing was fed. *)
Theorem feed_keeps_both_ends (b : ascii) (text : list ascii) (s : SQLBuffer) :
  last (WriteSQL b s) = Some (blank_to_space b)
  /\ last (feed (text ++ [b]) s) = Some (blank_to_space b)
  /\ head (feed (b :: text) empty_buffer) = Some (blank_to_space b)
  /\ (feed text empty_buffer = [] <-> text = []).
Proof.
  split; [apply WriteSQL_last|].
  split; [rewrite feed_snoc; apply WriteSQL_last|].
  split.
  - change (feed (b :: text) empty_buffer)
      with (feed text (WriteSQL b empty_buffer)).
    unfold empty_buffer. rewrite WriteSQL_empty.
    destruct (feed_prefix text [if is_blank b then " "%char else b])
      as [tail ->].
    reflexivity.
  - split; [|now intros ->].
    destruct text as [|c text _] using rev_ind; [reflexivity|].
    intros Hempty. pose proof (WriteSQL_last c (feed text empty_buffer)) as Hl.
    rewrite <- feed_snoc, Hempty in Hl. discriminate.
Qed.

(** ** The registry: white space around a "tinyint" detail string *)

Lemma list_ascii_of_string_app (a b : string) :
  list_ascii_of_string (a +:+ b)
  = list_ascii_of_string a ++ list_ascii_of_string b.
Proof.
  induction a as [|x a IH]; [reflexivity|].
  change (x :: list_ascii_of_string (a +:+ b)
          = x :: (list_ascii_of_string a ++ list_ascii_of_string b)).
  now f_equal.
Qed.

Lemma strip_rune_ascii_space (c : ascii) (l : list ascii) :
  is_ascii_space c = true -> strip_rune space_runes (c :: l) = Some l.
Proof.
  destruct c as [[] [] [] [] [] [] [] []]; intros H; vm_compute in H;
    try discriminate H; reflexivity.
Qed.

Lemma TrimSpace_leading_space (c : ascii) (d : string) :
  is_ascii_space c = true -> TrimSpace (String c d) = TrimSpace d.
Proof.
  intros Hc. unfold TrimSpace, trim_runes at 2 4.
  cbn [list_ascii_of_string length trim_runes_fuel].
  now rewrite (strip_rune_ascii_space c _ Hc).
Qed.

Lemma TrimSpace_padding (pad d : string) :
  forallb is_ascii_space (list_ascii_of_string pad) = true ->
  TrimSpace (pad +:+ d) = TrimSpace d.
Proof.
  induction pad as [|c pad IH]; [reflexivity|].
  cbn [list_ascii_of_string forallb]. intros H.
  apply andb_prop in H as [Hc Hpad].
  change (String c pad +:+ d) with (String c (pad +:+ d)).
  rewrite (TrimSpace_leading_space c _ Hc). now apply IH.
Qed.

Lemma strip_prefix_keeps (c : ascii) (r x b rest : list ascii) :
  ~ In c r -> strip_prefix r (x ++ c :: b) = Some rest ->
  exists x', rest = x' ++ c :: b.
Proof.
  revert x. induction r as [|a r IH]; intros x Hc; cbn [strip_prefix].
  - intros [= <-]. now exists x.
  - destruct x as [|y x]; cbn [app].
    + destruct (Ascii.eqb_spec a c) as [->|_]; [|discriminate].
      exfalso. apply Hc. now left.
    + destruct (Ascii.eqb a y); [|discriminate].
      apply IH. intros Hin. apply Hc. now right.
Qed.

Lemma strip_rune_keeps (c : ascii) (runes : list (list ascii))
    (x b rest : list ascii) :
  Forall (fun r => ~ In c r) runes ->
  strip_rune runes (x ++ c :: b) = Some rest ->
  exists x', rest = x' ++ c :: b.
Proof.
  induction 1 as [|r runes Hr _ IH]; cbn [strip_rune]; [discriminate|].
  destruct (strip_prefix r (x ++ c :: b)) as [rest'|] eqn:Hp; [|exact IH].
  intros [= <-]. exact (strip_prefix_keeps c r x b rest' Hr Hp).
Qed.

Lemma trim_runes_fuel_keeps (c : ascii) (runes : list (list ascii))
    (n : nat) (x b : list ascii) :
  Forall (fun r => ~ In c r) runes ->
  exists x', trim_runes_fuel n runes (x ++ c :: b) = x' ++ c :: b.
Proof.
  intros Hc. revert x. induction n as [|n IH]; intros x; cbn [trim_runes_fuel].
  - now exists x.
  - destruct (strip_rune runes (x ++ c :: b)) as [rest|] eqn:Hs;
      [|now exists x].
    destruct (strip_rune_keeps c runes x b rest Hc Hs) as [x' ->].
    apply IH.
Qed.

Lemma close_paren_in_no_space_rune :
  Forall (fun r => ~ In ")"%char r) (map (@rev ascii) space_runes).
Proof.
  repeat constructor; cbn; intros H;
    repeat (destruct H as [H|H]; [discriminate H|]); exact H.
Qed.

Lemma TrimSpace_keeps_tinyint1 (rest : string) :
  HasPrefix (TrimSpace ("tinyint(1)" +:+ rest)) "tinyint(1)" = true.
Proof.
  unfold TrimSpace. rewrite list_ascii_of_string_app.
  set (r := list_ascii_of_string rest).
  cbn [list_ascii_of_string app].
  unfold trim_runes at 2. cbn [length trim_runes_fuel].
  change (strip_rune space_runes ("t"%char :: _)) with (@None (list ascii)).
  cbv beta iota.
  change ("t" :: "i" :: "n" :: "y" :: "i" :: "n" :: "t" :: "(" :: "1"
            :: ")" :: r)%char
    with (["t"; "i"; "n"; "y"; "i"; "n"; "t"; "("; "1"; ")"]%char ++ r).
  rewrite rev_app_distr. cbn [rev app]. unfold trim_runes.
  destruct (trim_runes_fuel_keeps ")"%char (map (@rev ascii) space_runes)
              (length (rev r ++ [")"; "1"; "("; "t"; "n"; "i"; "y"; "n";
                                 "i"; "t"]%char))
              (rev r) ["1"; "("; "t"; "n"; "i"; "y"; "n"; "i"; "t"]%char
              close_paren_in_no_space_rune) as [x' ->].
  rewrite rev_app_distr. reflexivity.
Qed.

(** X16. ASCII white space before the detail string of a "tinyint" never
    changes the answer, and a detail string that, after such white space,
    starts with "tinyint(1)" is answered "bool" whatever follows. *)
Theorem tinyint_detail_padding (pad d rest : string) :
  forallb is_ascii_space (list_ascii_of_string pad) = true ->
  Get ToLower dataType "tinyint" (pad +:+ d)
  = Get ToLower dataType "tinyint" d
  /\ Get ToLower dataType "tinyint" (pad +:+ "tinyint(1)" +:+ rest) = "bool".
Proof.
  intros Hpad.
  assert (Hget : forall x, Get ToLower dataType "tinyint" x = tinyint_mapping x)
    by (intros x; apply Get_found, dataType_tinyint).
  split.
  - rewrite (Hget (pad +:+ d)), (Hget d). unfold tinyint_mapping.
    now rewrite (TrimSpace_padding pad d Hpad).
  - rewrite Hget. unfold tinyint_mapping.
    rewrite (TrimSpace_padding pad _ Hpad).
    now rewrite TrimSpace_keeps_tinyint1.
Qed.

(** X16 with two spaces in front. *)
Lemma tinyint_detail_padding_witness :
  Get ToLower dataType "tinyint" "  tinyint(4)"
  = Get ToLower dataType "tinyint" "tinyint(4)"
  /\ Get ToLower dataType "tinyint" "  tinyint(1) unsigned zerofill " = "bool".
Proof.
  exact (tinyint_detail_padding "  " "tinyint(4)" " unsigned zerofill "
           eq_refl).
Defined.

(** ** Field descriptors: escaping against two keyword sets *)

(** X17. Escaping against two keyword sets, neither with a word that ends
    in an underscore, gives the same descriptor in either order, and the
    name it leaves is a member of neither set. *)
Theorem EscapeKeywordFor_two_sets {GormTag Relation : Type}
    (a b : KeyWord) (m : Field GormTag Relation) :
  no_trailing_underscore a = true ->
  no_trailing_underscore b = true ->
  EscapeKeywordFor a (EscapeKeywordFor b m)
  = EscapeKeywordFor b (EscapeKeywordFor a m)
  /\ FullMatch a (Name (EscapeKeywordFor a (EscapeKeywordFor b m))) = false
  /\ FullMatch b (Name (EscapeKeywordFor a (EscapeKeywordFor b m))) = false.
Proof.
  intros Ha Hb.
  pose proof (FullMatch_escaped a (Name m) Ha) as Ha'.
  pose proof (FullMatch_escaped b (Name m) Hb) as Hb'.
  unfold EscapeKeywordFor.
  destruct (FullMatch a (Name m)) eqn:Hma;
    destruct (FullMatch b (Name m)) eqn:Hmb;
    cbn [set_Name Name]; rewrite ?Ha', ?Hb', ?Hma, ?Hmb;
    cbn [set_Name Name]; rewrite ?Ha', ?Hb', ?Hma, ?Hmb;
    repeat split; reflexivity.
Qed.

(** X17 on the query-builder and data-object sets and the name
    "TableName", a member of both. *)
Lemma EscapeKeywordFor_two_sets_witness :
  EscapeKeywordFor GormKeywords
    (EscapeKeywordFor DOKeywords (plain_field "TableName" "string"))
  = EscapeKeywordFor DOKeywords
      (EscapeKeywordFor GormKeywords (plain_field "TableName" "string")).
Proof.
  exact (proj1 (EscapeKeywordFor_two_sets GormKeywords DOKeywords
                  (plain_field "TableName" "string") eq_refl eq_refl)).
Defined.
